(** * The markdown post loader of brophy.org (post-api.ts) and the tag route

    A shallow embedding of [isValidPostAttributes], [excerpt], [readPost],
    [getPosts] and of the tag route's [loader], with the properties the
    specification states about them.

    JavaScript strings are sequences of UTF-16 code units that are compared
    code unit by code unit.  Here a [string] is read as a sequence of code
    units below 256, one [ascii] each, which covers every string literal of
    the source; [String.compare] is then the order of [<] and [>]. *)

From Stdlib Require Import List String Ascii Bool ZArith Lia.
From Stdlib Require Import Permutation Sorted OrderedTypeEx.
Import ListNotations.

Local Open Scope list_scope.
Local Open Scope string_scope.

(** ** String operations of the JavaScript runtime used by the source *)

Module Js.

(** [a < b] and [a > b] on two strings. *)
Definition lt (a b : string) : bool := String.ltb a b.
Definition gt (a b : string) : bool := String.ltb b a.

(** White space and line terminators removed by [String.prototype.trim],
    among the code units below 256: TAB, LF, VT, FF, CR, SP and NBSP. *)
Definition is_white_space (c : ascii) : bool :=
  let n := N_of_ascii c in
  ((9 <=? n) && (n <=? 13) || (n =? 32) || (n =? 160))%N.

Fixpoint trimStart (s : string) : string :=
  match s with
  | EmptyString => EmptyString
  | String c s' => if is_white_space c then trimStart s' else s
  end.

Fixpoint trimEnd (s : string) : string :=
  match s with
  | EmptyString => EmptyString
  | String c s' =>
      match trimEnd s' with
      | EmptyString => if is_white_space c then EmptyString
                       else String c EmptyString
      | t => String c t
      end
  end.

Definition trim (s : string) : string := trimEnd (trimStart s).

(** [s.replace(/^pre/, '')] for a literal [pre]: the regular expression
    has no [m] flag, so it can match at the start of [s] only. *)
Fixpoint strip_start (pre s : string) : option string :=
  match pre, s with
  | EmptyString, _ => Some s
  | String a pre', String b s' =>
      if Ascii.eqb a b then strip_start pre' s' else None
  | String _ _, EmptyString => None
  end.

Definition replace_start (pre s : string) : string :=
  match strip_start pre s with
  | Some rest => rest
  | None => s
  end.

(** [s.replace(/suf$/, '')] for a literal [suf]: without the [m] flag
    [$] matches at the end of [s] only. *)
Fixpoint replace_end (suf s : string) : string :=
  if String.eqb s suf then EmptyString
  else match s with
       | EmptyString => EmptyString
       | String c s' => String c (replace_end suf s')
       end.

(** [s.split(sep)] for a separator of one code unit. *)
Fixpoint split (sep : ascii) (s : string) : list string :=
  match s with
  | EmptyString => [EmptyString]
  | String c s' =>
      if Ascii.eqb c sep then EmptyString :: split sep s'
      else match split sep s' with
           | [] => [String c EmptyString]
           | t :: ts => String c t :: ts
           end
  end.

(** [xs.includes(x)] on an array of strings. *)
Definition includes (xs : list string) (x : string) : bool :=
  existsb (String.eqb x) xs.

(** [a ?? b]. *)
Definition nullish {A : Type} (a : option A) (b : A) : A :=
  match a with
  | Some v => v
  | None => b
  end.

(** Truthiness of an optional boolean and of an optional string. *)
Definition truthy_bool (b : option bool) : bool :=
  match b with
  | Some true => true
  | _ => false
  end.

Definition truthy_string (s : option string) : bool :=
  match s with
  | Some (String _ _) => true
  | _ => false
  end.

(** [xs.sort(cmp)]: a stable sort by a comparator whose sign tells the
    order of its arguments.  The language fixes the result for a consistent
    comparator, not the algorithm; here an element is placed before the
    first one it does not compare greater than. *)
Section Sort.
Context {A : Type} (cmp : A -> A -> Z).

Fixpoint insert (x : A) (l : list A) : list A :=
  match l with
  | [] => [x]
  | y :: l' => if (cmp x y <=? 0)%Z then x :: y :: l'
               else y :: insert x l'
  end.

Fixpoint sort (l : list A) : list A :=
  match l with
  | [] => []
  | x :: l' => insert x (sort l')
  end.
End Sort.

End Js.

(** ** Outcome of an asynchronous computation *)

(** What the source can throw or reject with. *)
Inductive error : Type :=
| IOError (path : string)
| FrontMatterError
| InvariantFailed (message : string)
| VagueTimeError.

(** A settled promise; a synchronous [throw] inside an [async] function is a
    rejection as well. *)
Inductive promise (A : Type) : Type :=
| Resolved (value : A)
| Rejected (reason : error).

Arguments Resolved {A} value.
Arguments Rejected {A} reason.

Definition bind {A B : Type} (m : promise A) (k : A -> promise B) : promise B :=
  match m with
  | Resolved a => k a
  | Rejected e => Rejected e
  end.

Notation "x <- m ;; k" := (bind m (fun x => k))
  (at level 61, m at next level, right associativity).
Notation "' pat <- m ;; k" := (bind m (fun x => match x with pat => k end))
  (at level 61, pat pattern, m at next level, right associativity).

(** [Promise.all]: the values in the order of the promises, or a rejection
    as soon as one promise rejects.  Which rejection wins depends on the
    order in which the reads complete; the model takes the first in array
    order, and the theorems below only use that the result is a rejection. *)
Fixpoint Promise_all {A : Type} (ps : list (promise A)) : promise (list A) :=
  match ps with
  | [] => Resolved []
  | p :: ps' => a <- p ;; rest <- Promise_all ps' ;; Resolved (a :: rest)
  end.

(** [invariant(condition, message)] of tiny-invariant. *)
Definition invariant (condition : bool) (message : string) : promise unit :=
  if condition then Resolved tt else Rejected (InvariantFailed message).

(** ** Data model *)

(** The attributes of a file's front matter.  The source declares [title]
    and [tags] as strings but tests both at run time ([attributes?.title],
    [attributes.tags ?? '']), so they are optional here; [draft] is declared
    optional; [author] and [postDate] are taken at their declared type. *)
Module PostMarkdownAttributes.
Record t : Type := mk {
    title : option string;
    author : string;
    postDate : string;
    tags : option string;
    draft : option bool
  }.
End PostMarkdownAttributes.

Module Post.
Record t : Type := mk {
    title : option string;
    author : string;
    postDate : string;
    draft : option bool;
    tags : list string;
    slug : string;
    permalink : string;
    excerpt : string;
    readingTime : string;
    relativeDate : string
  }.
End Post.

Module LoaderData.
Record t : Type := mk {
    tag : string;
    posts : list Post.t
  }.
End LoaderData.

(** The file system and the imported packages: what the source calls but
    does not define. *)
Record Host : Type := {
  (** [fs.readdir(postsPath)] *)
  readdir : promise (list string);
  (** [fs.readFile(path.join(postsPath, filename))] followed by [toString()] *)
  readFile : string -> promise string;
  (** [parseFrontMatter(fileContents)]: the attributes and the body *)
  parseFrontMatter : string -> promise (PostMarkdownAttributes.t * string);
  (** [marked(body)] *)
  marked : string -> string;
  (** [$.html($('p').first())] after [cheerio.load(html)]: the first [p]
      element serialised, the empty string when there is none *)
  first_p : string -> string;
  (** [readingTime(body).text] *)
  readingTime_text : string -> string;
  (** [vagueTime.get({ to: postDate })] *)
  vagueTime_get : string -> promise string
}.

(** ** The post loader *)

Section PostApi.

Variable h : Host.

Definition isValidPostAttributes (attributes : PostMarkdownAttributes.t) : bool :=
  Js.truthy_string (PostMarkdownAttributes.title attributes).

Definition excerpt (html : string) : string :=
  Js.replace_end "</p>" (Js.replace_start "<p>" (Js.trim (first_p h html))).

Definition readPost (filename : string) : promise Post.t :=
  fileContents <- readFile h filename ;;
  '(attributes, body) <- parseFrontMatter h fileContents ;;
  _ <- invariant (isValidPostAttributes attributes)
                 (filename ++ " has bad meta data!") ;;
  let slug := Js.replace_end ".md" filename in
  let html := marked h body in
  relativeDate <- vagueTime_get h (PostMarkdownAttributes.postDate attributes) ;;
  Resolved
    {| Post.title := PostMarkdownAttributes.title attributes;
       Post.author := PostMarkdownAttributes.author attributes;
       Post.postDate := PostMarkdownAttributes.postDate attributes;
       Post.draft := PostMarkdownAttributes.draft attributes;
       Post.tags :=
         Js.split "," (Js.nullish (PostMarkdownAttributes.tags attributes) "");
       Post.slug := slug;
       Post.permalink := "/post/" ++ slug;
       Post.excerpt := excerpt html;
       Post.readingTime := readingTime_text h body;
       Post.relativeDate := relativeDate |}.

(** The comparator of [getPosts]: reverse chronological order. *)
Definition compare_posts (a b : Post.t) : Z :=
  if Js.lt (Post.postDate a) (Post.postDate b) then 1%Z
  else if Js.gt (Post.postDate a) (Post.postDate b) then (-1)%Z
  else 0%Z.

Definition getPosts : promise (list Post.t) :=
  dir <- readdir h ;;
  posts <- Promise_all (map readPost dir) ;;
  Resolved
    (Js.sort compare_posts
       (filter (fun p => negb (Js.truthy_bool (Post.draft p))) posts)).

(** The loader of the tag route; [tag] is [params.tag]. *)
Definition loader (tag : option string) : promise LoaderData.t :=
  posts <- getPosts ;;
  match tag with
  | None => Rejected (InvariantFailed "No tag provided")
  | Some tag =>
      Resolved
        {| LoaderData.tag := tag;
           LoaderData.posts :=
             filter (fun p => Js.includes (Post.tags p) tag) posts |}
  end.

End PostApi.

(** ** Two small posts directories

    Concrete hosts on which the statements below are evaluated.  A file is
    given by its name, its text and what the front matter parser makes of
    the text; bodies are single paragraphs, rendered by wrapping them in a
    [p] element. *)

Module Demo.

Definition file : Type := string * string * (PostMarkdownAttributes.t * string).

Fixpoint text_of (files : list file) (filename : string) : promise string :=
  match files with
  | [] => Rejected (IOError filename)
  | (name, text, _) :: rest =>
      if String.eqb name filename then Resolved text else text_of rest filename
  end.

Fixpoint parse (files : list file) (fileContents : string)
  : promise (PostMarkdownAttributes.t * string) :=
  match files with
  | [] => Rejected FrontMatterError
  | (_, text, parsed) :: rest =>
      if String.eqb text fileContents then Resolved parsed
      else parse rest fileContents
  end.

Definition newline : string := String (ascii_of_nat 10) EmptyString.

Definition host (files : list file) : Host :=
  {| readdir := Resolved (map (fun f => fst (fst f)) files);
     readFile := text_of files;
     parseFrontMatter := parse files;
     marked := fun body => "<p>" ++ body ++ "</p>" ++ newline;
     first_p := Js.trim;
     readingTime_text := fun _ => "1 min read";
     vagueTime_get := fun postDate =>
       if String.eqb postDate "" then Rejected VagueTimeError
       else Resolved "some time ago" |}.

Definition older : file :=
  ("older.md", "title: Older; postDate: 2019-05-06; draft: false",
   ({| PostMarkdownAttributes.title := Some "Older";
       PostMarkdownAttributes.author := "Matt";
       PostMarkdownAttributes.postDate := "2019-05-06";
       PostMarkdownAttributes.tags := None;
       PostMarkdownAttributes.draft := Some false |},
    "An older post")).

Definition hello : file :=
  ("hello.md", "title: Hello; postDate: 2020-01-02; tags: a,b,c",
   ({| PostMarkdownAttributes.title := Some "Hello";
       PostMarkdownAttributes.author := "Matt";
       PostMarkdownAttributes.postDate := "2020-01-02";
       PostMarkdownAttributes.tags := Some "a,b,c";
       PostMarkdownAttributes.draft := None |},
    "Hello <b>world</b>")).

Definition wip : file :=
  ("wip.md", "title: WIP; postDate: 2021-03-04; tags: a, b; draft: true",
   ({| PostMarkdownAttributes.title := Some "WIP";
       PostMarkdownAttributes.author := "Matt";
       PostMarkdownAttributes.postDate := "2021-03-04";
       PostMarkdownAttributes.tags := Some "a, b";
       PostMarkdownAttributes.draft := Some true |},
    "Work in progress")).

Definition untitled : file :=
  ("untitled.md", "postDate: 2022-07-08; draft: true",
   ({| PostMarkdownAttributes.title := None;
       PostMarkdownAttributes.author := "Matt";
       PostMarkdownAttributes.postDate := "2022-07-08";
       PostMarkdownAttributes.tags := None;
       PostMarkdownAttributes.draft := Some true |},
    "No title yet")).

(** A directory whose files all load, one of them a draft. *)
Definition blog : Host := host [older; hello; wip].

(** The same directory with a draft that has no title. *)
Definition broken : Host := host [older; untitled; hello].

(** The records [readPost] builds from the three files of [blog]. *)
Definition older_post : Post.t :=
  {| Post.title := Some "Older";
     Post.author := "Matt";
     Post.postDate := "2019-05-06";
     Post.draft := Some false;
     Post.tags := [""];
     Post.slug := "older";
     Post.permalink := "/post/older";
     Post.excerpt := "An older post";
     Post.readingTime := "1 min read";
     Post.relativeDate := "some time ago" |}.

Definition hello_post : Post.t :=
  {| Post.title := Some "Hello";
     Post.author := "Matt";
     Post.postDate := "2020-01-02";
     Post.draft := None;
     Post.tags := ["a"; "b"; "c"];
     Post.slug := "hello";
     Post.permalink := "/post/hello";
     Post.excerpt := "Hello <b>world</b>";
     Post.readingTime := "1 min read";
     Post.relativeDate := "some time ago" |}.

Definition wip_post : Post.t :=
  {| Post.title := Some "WIP";
     Post.author := "Matt";
     Post.postDate := "2021-03-04";
     Post.draft := Some true;
     Post.tags := ["a"; " b"];
     Post.slug := "wip";
     Post.permalink := "/post/wip";
     Post.excerpt := "Work in progress";
     Post.readingTime := "1 min read";
     Post.relativeDate := "some time ago" |}.

End Demo.

(** ** A second posts directory

    File names with and without the [.md] extension, two of them differing
    by the extension only, and two posts of the same date. *)

Module Archive.

Definition about_md : Demo.file :=
  ("about.md", "title: About (markdown); postDate: 2021-06-01",
   ({| PostMarkdownAttributes.title := Some "About (markdown)";
       PostMarkdownAttributes.author := "Matt";
       PostMarkdownAttributes.postDate := "2021-06-01";
       PostMarkdownAttributes.tags := None;
       PostMarkdownAttributes.draft := None |},
    "About, in markdown")).

Definition readme : Demo.file :=
  ("README", "title: Read me; postDate: 2018-01-01; tags: meta",
   ({| PostMarkdownAttributes.title := Some "Read me";
       PostMarkdownAttributes.author := "Matt";
       PostMarkdownAttributes.postDate := "2018-01-01";
       PostMarkdownAttributes.tags := Some "meta";
       PostMarkdownAttributes.draft := None |},
    "Read me first")).

Definition about : Demo.file :=
  ("about", "title: About; postDate: 2021-06-01; tags: meta,site",
   ({| PostMarkdownAttributes.title := Some "About";
       PostMarkdownAttributes.author := "Matt";
       PostMarkdownAttributes.postDate := "2021-06-01";
       PostMarkdownAttributes.tags := Some "meta,site";
       PostMarkdownAttributes.draft := Some false |},
    "About this site")).

Definition site : Host := Demo.host [about_md; readme; about].

Definition about_md_post : Post.t :=
  {| Post.title := Some "About (markdown)";
     Post.author := "Matt";
     Post.postDate := "2021-06-01";
     Post.draft := None;
     Post.tags := [""];
     Post.slug := "about";
     Post.permalink := "/post/about";
     Post.excerpt := "About, in markdown";
     Post.readingTime := "1 min read";
     Post.relativeDate := "some time ago" |}.

Definition readme_post : Post.t :=
  {| Post.title := Some "Read me";
     Post.author := "Matt";
     Post.postDate := "2018-01-01";
     Post.draft := None;
     Post.tags := ["meta"];
     Post.slug := "README";
     Post.permalink := "/post/README";
     Post.excerpt := "Read me first";
     Post.readingTime := "1 min read";
     Post.relativeDate := "some time ago" |}.

Definition about_post : Post.t :=
  {| Post.title := Some "About";
     Post.author := "Matt";
     Post.postDate := "2021-06-01";
     Post.draft := Some false;
     Post.tags := ["meta"; "site"];
     Post.slug := "about";
     Post.permalink := "/post/about";
     Post.excerpt := "About this site";
     Post.readingTime := "1 min read";
     Post.relativeDate := "some time ago" |}.

End Archive.

(** ** Notions used to state further properties *)

(** Whether [s] ends with [suf], that is, whether [/suf$/] matches [s]. *)
Fixpoint ends_with (suf s : string) : bool :=
  if String.eqb s suf then true
  else match s with
       | EmptyString => false
       | String _ s' => ends_with suf s'
       end.

(** The number of commas of a string. *)
Definition commas (s : string) : nat :=
  count_occ ascii_dec (list_ascii_of_string s) ","%char.

(** Whether a post has the given [postDate]. *)
Definition dated (d : string) (p : Post.t) : bool :=
  String.eqb (Post.postDate p) d.

(** Whether a post is kept by the draft filter of [getPosts]. *)
Definition published (p : Post.t) : bool :=
  negb (Js.truthy_bool (Post.draft p)).

(** The host [h] with another outcome of [fs.readdir]: the same files,
    listed in another way. *)
Definition with_readdir (h : Host) (listing : promise (list string)) : Host :=
  {| readdir := listing;
     readFile := readFile h;
     parseFrontMatter := parseFrontMatter h;
     marked := marked h;
     first_p := first_p h;
     readingTime_text := readingTime_text h;
     vagueTime_get := vagueTime_get h |}.

(** ** Order of strings under [<] *)

Section StringOrder.

Lemma lt_compare (a b : string) : Js.lt a b = true <-> String.compare a b = Lt.
Proof.
  unfold Js.lt, String.ltb. destruct (String.compare a b); split; congruence.
Qed.

Lemma lt_irrefl (a : string) : Js.lt a a = false.
Proof.
  destruct (Js.lt a a) eqn:E; trivial.
  apply lt_compare in E.
  pose proof (String.compare_antisym a a) as H. rewrite E in H. discriminate.
Qed.

Lemma lt_asym (a b : string) : Js.lt a b = true -> Js.lt b a = false.
Proof.
  intros H. apply lt_compare in H.
  unfold Js.lt, String.ltb. rewrite String.compare_antisym, H. reflexivity.
Qed.

Lemma lt_connex (a b : string) : Js.lt a b = false -> a <> b -> Js.lt b a = true.
Proof.
  intros H Hne. apply lt_compare. rewrite String.compare_antisym.
  unfold Js.lt, String.ltb in H.
  destruct (String.compare a b) eqn:E; try discriminate; trivial.
  apply String.compare_eq_iff in E. contradiction.
Qed.

Lemma lt_trans (a b c : string) :
  Js.lt a b = true -> Js.lt b c = true -> Js.lt a c = true.
Proof.
  rewrite !lt_compare. intros H1 H2.
  apply String_as_OT.cmp_lt. apply String_as_OT.cmp_lt in H1, H2.
  eapply String_as_OT.lt_trans; eassumption.
Qed.

Lemma ge_trans (a b c : string) :
  Js.lt a b = false -> Js.lt b c = false -> Js.lt a c = false.
Proof.
  intros H1 H2. destruct (Js.lt a c) eqn:E; trivial.
  destruct (String.string_dec a b) as [->|Hne]; [congruence|].
  pose proof (lt_connex a b H1 Hne) as Hba.
  pose proof (lt_trans _ _ _ Hba E). congruence.
Qed.

End StringOrder.

(** ** The sort returns a sorted rearrangement *)

Section SortFacts.

Context {A : Type} (cmp : A -> A -> Z).

Hypothesis cmp_connex : forall x y, (0 < cmp x y)%Z -> (cmp y x <= 0)%Z.
Hypothesis cmp_trans :
  forall x y z, (cmp x y <= 0)%Z -> (cmp y z <= 0)%Z -> (cmp x z <= 0)%Z.

Lemma insert_perm (x : A) (l : list A) : Permutation (Js.insert cmp x l) (x :: l).
Proof.
  induction l as [|y l IH]; simpl; [reflexivity|].
  destruct (cmp x y <=? 0)%Z; [reflexivity|].
  rewrite IH. apply perm_swap.
Qed.

Lemma sort_perm (l : list A) : Permutation (Js.sort cmp l) l.
Proof.
  induction l as [|x l IH]; simpl; [reflexivity|].
  rewrite insert_perm. now constructor.
Qed.

Lemma insert_sorted (x : A) (l : list A) :
  StronglySorted (fun a b => (cmp a b <= 0)%Z) l ->
  StronglySorted (fun a b => (cmp a b <= 0)%Z) (Js.insert cmp x l).
Proof.
  induction 1 as [|y l Hs IH Hy]; simpl.
  - repeat constructor.
  - destruct (cmp x y <=? 0)%Z eqn:E.
    + apply Z.leb_le in E. constructor; [now constructor|].
      constructor; [exact E|].
      eapply Forall_impl; [|exact Hy]. intros z Hz. now apply cmp_trans with y.
    + apply Z.leb_gt in E. constructor; [exact IH|].
      eapply Permutation_Forall; [symmetry; apply insert_perm|].
      constructor; [now apply cmp_connex|exact Hy].
Qed.

Lemma sort_sorted (l : list A) :
  StronglySorted (fun a b => (cmp a b <= 0)%Z) (Js.sort cmp l).
Proof.
  induction l as [|x l IH]; simpl; [constructor|now apply insert_sorted].
Qed.

End SortFacts.

Lemma StronglySorted_weaken {A : Type} (R S : A -> A -> Prop) (l : list A) :
  (forall a b, R a b -> S a b) -> StronglySorted R l -> StronglySorted S l.
Proof.
  intros HRS. induction 1 as [|x l _ IH Hx]; constructor; trivial.
  eapply Forall_impl; [|exact Hx]. intros b. apply HRS.
Qed.

Lemma StronglySorted_nth {A : Type} (R : A -> A -> Prop) (l : list A) :
  StronglySorted R l ->
  forall i j a b, i < j -> nth_error l i = Some a -> nth_error l j = Some b -> R a b.
Proof.
  induction 1 as [|x l Hs IH Hx]; intros i j a b Hij Hi Hj.
  - destruct i; discriminate.
  - destruct j as [|j]; [lia|]. simpl in Hj.
    destruct i as [|i]; simpl in Hi.
    + injection Hi as <-. rewrite Forall_forall in Hx.
      apply Hx. eapply nth_error_In; eassumption.
    + apply (IH i j); trivial. lia.
Qed.


(** ** Promises *)

Lemma bind_resolved {A B : Type} (m : promise A) (k : A -> promise B) (b : B) :
  bind m k = Resolved b -> exists a, m = Resolved a /\ k a = Resolved b.
Proof.
  destruct m as [a|e]; simpl; [eauto|discriminate].
Qed.

Lemma Promise_all_resolved {A : Type} (ps : list (promise A)) (l : list A) :
  Promise_all ps = Resolved l -> Forall2 (fun p a => p = Resolved a) ps l.
Proof.
  revert l. induction ps as [|p ps IH]; simpl; intros l H.
  - injection H as <-. constructor.
  - apply bind_resolved in H as (a & -> & H).
    apply bind_resolved in H as (rest & Hrest & H).
    injection H as <-. constructor; auto.
Qed.

Lemma Promise_all_of_resolved {A : Type} (ps : list (promise A)) (l : list A) :
  Forall2 (fun p a => p = Resolved a) ps l -> Promise_all ps = Resolved l.
Proof.
  induction 1 as [|p a ps l -> _ IH]; simpl; [reflexivity|].
  now rewrite IH.
Qed.

Lemma Promise_all_rejected {A : Type} (ps : list (promise A)) (e : error) :
  In (Rejected e) ps -> exists e', Promise_all ps = Rejected e'.
Proof.
  induction ps as [|p ps IH]; simpl; [contradiction|].
  intros [->|Hin]; simpl; [eauto|].
  destruct p as [a|e0]; simpl; [|eauto].
  destruct (IH Hin) as (e' & ->). simpl. eauto.
Qed.

(** ** Facts about [readPost] and [getPosts] *)

Section PostApiFacts.

Variable h : Host.

Lemma readPost_resolved (filename : string) (p : Post.t) :
  readPost h filename = Resolved p ->
  exists fileContents attributes body,
    readFile h filename = Resolved fileContents /\
    parseFrontMatter h fileContents = Resolved (attributes, body) /\
    isValidPostAttributes attributes = true /\
    Post.postDate p = PostMarkdownAttributes.postDate attributes /\
    Post.draft p = PostMarkdownAttributes.draft attributes /\
    Post.tags p =
      Js.split "," (Js.nullish (PostMarkdownAttributes.tags attributes) "") /\
    Post.excerpt p = excerpt h (marked h body).
Proof.
  unfold readPost. intros H.
  apply bind_resolved in H as (fileContents & Hfile & H).
  apply bind_resolved in H as ([attributes body] & Hparse & H).
  apply bind_resolved in H as ([] & Hinv & H).
  apply bind_resolved in H as (relativeDate & Hdate & H).
  injection H as <-.
  exists fileContents, attributes, body. simpl.
  unfold invariant in Hinv.
  destruct (isValidPostAttributes attributes); [|discriminate].
  repeat split; assumption.
Qed.

Lemma readPost_invalid (filename fileContents body : string)
    (attributes : PostMarkdownAttributes.t) :
  readFile h filename = Resolved fileContents ->
  parseFrontMatter h fileContents = Resolved (attributes, body) ->
  isValidPostAttributes attributes = false ->
  readPost h filename
  = Rejected (InvariantFailed (filename ++ " has bad meta data!")).
Proof.
  intros Hfile Hparse Hvalid. unfold readPost.
  rewrite Hfile. simpl. rewrite Hparse. simpl. rewrite Hvalid. reflexivity.
Qed.

Lemma getPosts_rejected (dir : list string) (filename : string) (e : error) :
  readdir h = Resolved dir -> In filename dir ->
  readPost h filename = Rejected e ->
  exists e', getPosts h = Rejected e'.
Proof.
  intros Hdir Hin Hrej. unfold getPosts. rewrite Hdir. simpl.
  destruct (Promise_all_rejected (map (readPost h) dir) e) as (e' & ->).
  - rewrite <- Hrej. now apply in_map.
  - simpl. eauto.
Qed.

Lemma getPosts_resolved (ps : list Post.t) :
  getPosts h = Resolved ps ->
  exists dir posts,
    readdir h = Resolved dir /\
    Forall2 (fun filename p => readPost h filename = Resolved p) dir posts /\
    ps = Js.sort compare_posts
           (filter (fun p => negb (Js.truthy_bool (Post.draft p))) posts).
Proof.
  unfold getPosts. intros H.
  apply bind_resolved in H as (dir & Hdir & H).
  apply bind_resolved in H as (posts & Hall & H).
  injection H as <-. exists dir, posts. repeat split; trivial.
  apply Promise_all_resolved in Hall.
  clear Hdir. revert posts Hall.
  induction dir as [|f dir IH]; simpl; intros posts Hall; inversion Hall; subst;
    constructor; auto.
Qed.

Lemma compare_posts_le (a b : Post.t) :
  (compare_posts a b <= 0)%Z <-> Js.lt (Post.postDate a) (Post.postDate b) = false.
Proof.
  unfold compare_posts.
  destruct (Js.lt (Post.postDate a) (Post.postDate b)); [split; [lia|discriminate]|].
  destruct (Js.gt (Post.postDate a) (Post.postDate b)); split; trivial; lia.
Qed.

Lemma getPosts_sorted (ps : list Post.t) :
  getPosts h = Resolved ps ->
  StronglySorted
    (fun a b => Js.lt (Post.postDate a) (Post.postDate b) = false) ps.
Proof.
  intros H. apply getPosts_resolved in H as (dir & posts & _ & _ & ->).
  eapply StronglySorted_weaken; [|apply sort_sorted].
  - intros a b Hab. apply compare_posts_le. exact Hab.
  - intros x y Hxy. apply compare_posts_le.
    unfold compare_posts in Hxy.
    destruct (Js.lt (Post.postDate x) (Post.postDate y)) eqn:E.
    + now apply lt_asym.
    + destruct (Js.gt (Post.postDate x) (Post.postDate y)); lia.
  - intros x y z. rewrite !compare_posts_le. apply ge_trans.
Qed.

End PostApiFacts.

(** ** Splitting, trimming and unwrapping *)

Section StringFacts.

Lemma split_nonempty (sep : ascii) (s : string) : Js.split sep s <> [].
Proof.
  destruct s as [|c s]; simpl; [discriminate|].
  destruct (Ascii.eqb c sep); [discriminate|].
  destruct (Js.split sep s); discriminate.
Qed.

Lemma concat_cons2 (sep x y : string) (l : list string) :
  String.concat sep (x :: y :: l) = x ++ sep ++ String.concat sep (y :: l).
Proof. reflexivity. Qed.

Lemma split_concat (sep : ascii) (s : string) :
  String.concat (String sep EmptyString) (Js.split sep s) = s.
Proof.
  induction s as [|c s IH]; simpl; [reflexivity|].
  pose proof (split_nonempty sep s) as Hne.
  destruct (Ascii.eqb_spec c sep) as [->|Hc].
  - destruct (Js.split sep s) as [|t ts]; [contradiction|].
    rewrite concat_cons2, IH. reflexivity.
  - destruct (Js.split sep s) as [|t ts]; [contradiction|].
    destruct ts as [|u us]; [simpl in *; now rewrite IH|].
    rewrite concat_cons2. rewrite concat_cons2 in IH.
    rewrite <- IH. reflexivity.
Qed.

Lemma split_no_sep (sep : ascii) (s : string) :
  Forall (fun t => ~ In sep (list_ascii_of_string t)) (Js.split sep s).
Proof.
  induction s as [|c s IH]; simpl.
  - constructor; [simpl; tauto|constructor].
  - destruct (Ascii.eqb_spec c sep) as [->|Hc].
    + constructor; [simpl; tauto|exact IH].
    + destruct (Js.split sep s) as [|t ts]; [repeat constructor; simpl; intuition|].
      inversion IH; subst. constructor; trivial.
      simpl. intros [Heq|Hin]; [contradiction|auto].
Qed.

Lemma length_app (s t : string) :
  String.length (s ++ t) = String.length s + String.length t.
Proof.
  induction s as [|c s IH]; simpl; [reflexivity|now rewrite IH].
Qed.

Lemma app_assoc (s t u : string) : (s ++ t) ++ u = s ++ t ++ u.
Proof.
  induction s as [|c s IH]; simpl; [reflexivity|now rewrite IH].
Qed.

Lemma append_cons_neq (c : ascii) (s suf : string) : String c s ++ suf <> suf.
Proof.
  intros H. apply (f_equal String.length) in H.
  simpl in H. rewrite length_app in H. lia.
Qed.

Lemma replace_end_eq (suf s : string) :
  Js.replace_end suf s =
  if String.eqb s suf then EmptyString
  else match s with
       | EmptyString => EmptyString
       | String c s' => String c (Js.replace_end suf s')
       end.
Proof. destruct s; reflexivity. Qed.

Lemma replace_end_app (suf s : string) : Js.replace_end suf (s ++ suf) = s.
Proof.
  induction s as [|c s IH]; rewrite replace_end_eq.
  - simpl. now rewrite String.eqb_refl.
  - destruct (String.eqb_spec (String c s ++ suf) suf) as [E|_].
    + exfalso. exact (append_cons_neq c s suf E).
    + simpl. now rewrite IH.
Qed.

Lemma trimEnd_last (s : string) (c : ascii) :
  Js.is_white_space c = false ->
  Js.trimEnd (s ++ String c EmptyString) = s ++ String c EmptyString.
Proof.
  intros Hc. induction s as [|d s IH]; simpl.
  - now rewrite Hc.
  - rewrite IH. destruct s; reflexivity.
Qed.

Lemma excerpt_unwraps (h : Host) (html inner : string) :
  first_p h html = "<p>" ++ inner ++ "</p>" -> excerpt h html = inner.
Proof.
  intros H. unfold excerpt, Js.trim. rewrite H.
  change ("<p>" ++ inner ++ "</p>")
    with (String "<" (String "p" (String ">" (inner ++ "</p>")))).
  cbn [Js.trimStart]. change (Js.is_white_space "<") with false. cbv iota.
  replace (String "<" (String "p" (String ">" (inner ++ "</p>"))))
    with (("<p>" ++ inner ++ "</" ++ "p") ++ ">").
  - rewrite trimEnd_last by reflexivity.
    replace (("<p>" ++ inner ++ "</" ++ "p") ++ ">")
      with (String "<" (String "p" (String ">" (inner ++ "</p>")))).
    + unfold Js.replace_start. simpl Js.strip_start. apply replace_end_app.
    + simpl. do 3 f_equal. now rewrite !app_assoc.
  - simpl. do 3 f_equal. now rewrite !app_assoc.
Qed.

End StringFacts.

(** ** The demo directories evaluated *)

Example blog_readPost :
  map (readPost Demo.blog) ["older.md"; "hello.md"; "wip.md"]
  = [Resolved Demo.older_post; Resolved Demo.hello_post; Resolved Demo.wip_post].
Proof. reflexivity. Qed.

Example blog_getPosts :
  getPosts Demo.blog = Resolved [Demo.hello_post; Demo.older_post].
Proof. reflexivity. Qed.

Example broken_getPosts :
  getPosts Demo.broken
  = Rejected (InvariantFailed "untitled.md has bad meta data!").
Proof. reflexivity. Qed.

(** ** Properties of the specification *)

(** C1. Two posts returned by [getPosts] whose [postDate]s differ: the one
    at the smaller index is the one whose [postDate] is greater under string
    comparison, and conversely (reverse chronological order). *)
Theorem getPosts_reverse_chronological
    (h : Host) (ps : list Post.t) (i j : nat) (a b : Post.t) :
  getPosts h = Resolved ps ->
  nth_error ps i = Some a ->
  nth_error ps j = Some b ->
  Post.postDate a <> Post.postDate b ->
  i < j <-> Js.gt (Post.postDate a) (Post.postDate b) = true.
Proof.
  intros Hps Ha Hb Hne.
  pose proof (StronglySorted_nth _ _ (getPosts_sorted h ps Hps)) as Hsorted.
  unfold Js.gt. fold (Js.lt (Post.postDate b) (Post.postDate a)). split.
  - intros Hij. apply lt_connex; [|congruence].
    exact (Hsorted i j a b Hij Ha Hb).
  - intros Hgt.
    destruct (Nat.lt_trichotomy i j) as [Hlt|[->|Hlt]]; trivial.
    + congruence.
    + pose proof (Hsorted j i b a Hlt Hb Ha). congruence.
Qed.

Lemma getPosts_reverse_chronological_witness :
  getPosts Demo.blog = Resolved [Demo.hello_post; Demo.older_post] /\
  (0 < 1 <-> Js.gt "2020-01-02" "2019-05-06" = true).
Proof.
  split; [reflexivity|].
  apply (getPosts_reverse_chronological Demo.blog
           [Demo.hello_post; Demo.older_post] 0 1
           Demo.hello_post Demo.older_post);
    [reflexivity|reflexivity|reflexivity|discriminate].
Defined.

(** C2. No post returned by [getPosts] has [draft = true]. *)
Theorem getPosts_excludes_drafts (h : Host) (ps : list Post.t) (p : Post.t) :
  getPosts h = Resolved ps -> In p ps -> Post.draft p <> Some true.
Proof.
  intros Hps Hin.
  apply getPosts_resolved in Hps as (dir & posts & _ & _ & ->).
  eapply Permutation_in in Hin; [|apply sort_perm].
  apply filter_In in Hin as [_ Hd].
  intros E. rewrite E in Hd. discriminate.
Qed.

Lemma getPosts_excludes_drafts_witness :
  In Demo.wip_post [Demo.older_post; Demo.hello_post; Demo.wip_post] /\
  Post.draft Demo.wip_post = Some true /\
  Post.draft Demo.hello_post <> Some true.
Proof.
  split; [simpl; tauto|]. split; [reflexivity|].
  apply (getPosts_excludes_drafts Demo.blog [Demo.hello_post; Demo.older_post]);
    [reflexivity|simpl; tauto].
Defined.

(** C3. A file whose front matter has no title, or an empty one, makes
    [readPost] reject with the invariant's error, and [getPosts] rejects
    for every directory that lists the file: the post is not skipped. *)
Theorem readPost_missing_title_fatal
    (h : Host) (filename fileContents body : string)
    (attributes : PostMarkdownAttributes.t) :
  readFile h filename = Resolved fileContents ->
  parseFrontMatter h fileContents = Resolved (attributes, body) ->
  PostMarkdownAttributes.title attributes = None \/
  PostMarkdownAttributes.title attributes = Some "" ->
  readPost h filename
  = Rejected (InvariantFailed (filename ++ " has bad meta data!")) /\
  forall dir, readdir h = Resolved dir -> In filename dir ->
              exists e, getPosts h = Rejected e.
Proof.
  intros Hfile Hparse Htitle.
  assert (isValidPostAttributes attributes = false) as Hvalid.
  { unfold isValidPostAttributes. destruct Htitle as [-> | ->]; reflexivity. }
  pose proof (readPost_invalid h _ _ _ _ Hfile Hparse Hvalid) as Hrej.
  split; [exact Hrej|].
  intros dir Hdir Hin. eapply getPosts_rejected; eassumption.
Qed.

Lemma readPost_missing_title_fatal_witness :
  readPost Demo.broken "untitled.md"
  = Rejected (InvariantFailed "untitled.md has bad meta data!") /\
  exists e, getPosts Demo.broken = Rejected e.
Proof.
  destruct (readPost_missing_title_fatal Demo.broken "untitled.md"
              (snd (fst Demo.untitled)) (snd (snd Demo.untitled))
              (fst (snd Demo.untitled)))
    as [Hread Hbatch];
    [reflexivity|reflexivity|left; reflexivity|].
  split; [exact Hread|].
  apply (Hbatch ["older.md"; "untitled.md"; "hello.md"]);
    [reflexivity|simpl; tauto].
Defined.

(** C4, as stated, fails on a draft: [wip.md] of the demo directory loads,
    has a title, and no record for it is returned. *)
Lemma getPosts_omits_valid_draft :
  ~ (forall filename p ps,
       In filename ["older.md"; "hello.md"; "wip.md"] ->
       readPost Demo.blog filename = Resolved p ->
       Js.truthy_string (Post.title p) = true ->
       getPosts Demo.blog = Resolved ps ->
       In p ps).
Proof.
  intros H.
  specialize (H "wip.md" Demo.wip_post [Demo.hello_post; Demo.older_post]).
  destruct H as [E|[E|[]]];
    try reflexivity; try discriminate E.
  simpl. tauto.
Qed.

(** C4, amended. When every file of the directory loads, [getPosts]
    resolves, and what it returns is a rearrangement of the records of the
    files that are not drafts, one record per such file: none is left out,
    none is repeated, and the drafts are absent. *)
Theorem getPosts_one_post_per_published_file (h : Host) (dir : list string) :
  readdir h = Resolved dir ->
  (forall filename, In filename dir -> exists p, readPost h filename = Resolved p) ->
  exists posts ps,
    Forall2 (fun filename p => readPost h filename = Resolved p) dir posts /\
    getPosts h = Resolved ps /\
    Permutation ps
      (filter (fun p => negb (Js.truthy_bool (Post.draft p))) posts).
Proof.
  intros Hdir Hall.
  assert (exists posts,
             Forall2 (fun filename p => readPost h filename = Resolved p) dir posts)
    as (posts & Hposts).
  { clear Hdir. induction dir as [|f dir IH].
    - exists []. constructor.
    - destruct (Hall f) as (p & Hp); [now left|].
      destruct IH as (posts & Hposts); [intros g Hg; apply Hall; now right|].
      exists (p :: posts). now constructor. }
  exists posts. eexists. split; [exact Hposts|]. split.
  - unfold getPosts. rewrite Hdir. simpl.
    rewrite (Promise_all_of_resolved (map (readPost h) dir) posts).
    + simpl. reflexivity.
    + clear Hdir Hall. induction Hposts; simpl; constructor; auto.
  - apply sort_perm.
Qed.

Lemma getPosts_one_post_per_published_file_witness :
  exists posts ps,
    Forall2 (fun filename p => readPost Demo.blog filename = Resolved p)
      ["older.md"; "hello.md"; "wip.md"] posts /\
    getPosts Demo.blog = Resolved ps /\
    Permutation ps
      (filter (fun p => negb (Js.truthy_bool (Post.draft p))) posts).
Proof.
  apply (getPosts_one_post_per_published_file Demo.blog
           ["older.md"; "hello.md"; "wip.md"]); [reflexivity|].
  intros filename [<-|[<-|[<-|[]]]]; eexists; reflexivity.
Defined.

(** C5, as stated, fails where a tag has white space around it: the tags
    ["a, b"] of [wip.md] become ["a"] and [" b"], the second one untrimmed. *)
Lemma readPost_tags_not_trimmed :
  ~ (forall p, readPost Demo.blog "wip.md" = Resolved p ->
               Post.tags p = map Js.trim (Js.split "," "a, b")).
Proof.
  intros H. specialize (H Demo.wip_post eq_refl). discriminate H.
Qed.

(** C5, amended. The [tags] of a post are the raw [tags] attribute split at
    its commas, the tokens left as they are: joined by commas they give the
    raw attribute back, and none contains a comma. For ["a,b,c"] they are
    ["a"], ["b"], ["c"] in that order. *)
Theorem readPost_tags_split
    (h : Host) (filename fileContents body raw : string)
    (attributes : PostMarkdownAttributes.t) (p : Post.t) :
  readFile h filename = Resolved fileContents ->
  parseFrontMatter h fileContents = Resolved (attributes, body) ->
  PostMarkdownAttributes.tags attributes = Some raw ->
  readPost h filename = Resolved p ->
  Post.tags p = Js.split "," raw /\
  String.concat "," (Post.tags p) = raw /\
  Forall (fun t => ~ In ","%char (list_ascii_of_string t)) (Post.tags p) /\
  (raw = "a,b,c" -> Post.tags p = ["a"; "b"; "c"]).
Proof.
  intros Hfile Hparse Htags Hp.
  apply readPost_resolved in Hp
    as (fc & at' & b' & Hfile' & Hparse' & _ & _ & _ & Hsplit & _).
  rewrite Hfile in Hfile'. injection Hfile' as <-.
  rewrite Hparse in Hparse'. injection Hparse' as <- <-.
  rewrite Htags in Hsplit. simpl in Hsplit. rewrite Hsplit.
  split; [reflexivity|]. split; [apply split_concat|].
  split; [apply split_no_sep|].
  intros ->. reflexivity.
Qed.

Lemma readPost_tags_split_witness :
  Post.tags Demo.hello_post = Js.split "," "a,b,c" /\
  String.concat "," (Post.tags Demo.hello_post) = "a,b,c" /\
  Forall (fun t => ~ In ","%char (list_ascii_of_string t))
    (Post.tags Demo.hello_post) /\
  ("a,b,c" = "a,b,c" -> Post.tags Demo.hello_post = ["a"; "b"; "c"]).
Proof.
  apply (readPost_tags_split Demo.blog "hello.md"
           (snd (fst Demo.hello)) (snd (snd Demo.hello)) "a,b,c"
           (fst (snd Demo.hello)) Demo.hello_post);
    reflexivity.
Defined.

(** C6. A file whose front matter has no [tags] attribute gives a post
    whose [tags] are the one-element sequence holding the empty string. *)
Theorem readPost_absent_tags
    (h : Host) (filename fileContents body : string)
    (attributes : PostMarkdownAttributes.t) (p : Post.t) :
  readFile h filename = Resolved fileContents ->
  parseFrontMatter h fileContents = Resolved (attributes, body) ->
  PostMarkdownAttributes.tags attributes = None ->
  readPost h filename = Resolved p ->
  Post.tags p = [""].
Proof.
  intros Hfile Hparse Htags Hp.
  apply readPost_resolved in Hp
    as (fc & at' & b' & Hfile' & Hparse' & _ & _ & _ & Hsplit & _).
  rewrite Hfile in Hfile'. injection Hfile' as <-.
  rewrite Hparse in Hparse'. injection Hparse' as <- <-.
  rewrite Htags in Hsplit. exact Hsplit.
Qed.

Lemma readPost_absent_tags_witness : Post.tags Demo.older_post = [""].
Proof.
  apply (readPost_absent_tags Demo.blog "older.md"
           (snd (fst Demo.older)) (snd (snd Demo.older))
           (fst (snd Demo.older)) Demo.older_post);
    reflexivity.
Defined.

(** C7. When the first paragraph of the rendered body serialises to
    [<p>Hello <b>world</b></p>], the excerpt of the post is
    [Hello <b>world</b>]: the serialised element without its leading [<p>]
    and its trailing [</p>]. *)
Theorem readPost_excerpt_hello_world
    (h : Host) (filename fileContents body : string)
    (attributes : PostMarkdownAttributes.t) (p : Post.t) :
  readFile h filename = Resolved fileContents ->
  parseFrontMatter h fileContents = Resolved (attributes, body) ->
  first_p h (marked h body) = "<p>Hello <b>world</b></p>" ->
  readPost h filename = Resolved p ->
  Post.excerpt p = "Hello <b>world</b>".
Proof.
  intros Hfile Hparse Hfirst Hp.
  apply readPost_resolved in Hp
    as (fc & at' & b' & Hfile' & Hparse' & _ & _ & _ & _ & Hexcerpt).
  rewrite Hfile in Hfile'. injection Hfile' as <-.
  rewrite Hparse in Hparse'. injection Hparse' as <- <-.
  rewrite Hexcerpt. apply excerpt_unwraps. exact Hfirst.
Qed.

Lemma readPost_excerpt_hello_world_witness :
  first_p Demo.blog (marked Demo.blog "Hello <b>world</b>")
  = "<p>Hello <b>world</b></p>" /\
  Post.excerpt Demo.hello_post = "Hello <b>world</b>".
Proof.
  split; [reflexivity|].
  apply (readPost_excerpt_hello_world Demo.blog "hello.md"
           (snd (fst Demo.hello)) (snd (snd Demo.hello))
           (fst (snd Demo.hello)) Demo.hello_post);
    reflexivity.
Defined.

(** C8. The tag route's loader keeps, of the posts [getPosts] returns,
    those whose [tags] contain a string equal to the tag asked for, and no
    others; the tags are compared as they are. *)
Theorem loader_filters_by_exact_tag
    (h : Host) (tag : string) (ps : list Post.t) :
  getPosts h = Resolved ps ->
  exists data,
    loader h (Some tag) = Resolved data /\
    LoaderData.tag data = tag /\
    forall p, In p (LoaderData.posts data) <-> In p ps /\ In tag (Post.tags p).
Proof.
  intros Hps. unfold loader. rewrite Hps. simpl.
  eexists. split; [reflexivity|]. split; [reflexivity|].
  intros p. simpl. rewrite filter_In. unfold Js.includes.
  rewrite existsb_exists. split; intros [Hin Htag]; split; trivial.
  - destruct Htag as (t & Ht & E). apply String.eqb_eq in E. now subst.
  - exists tag. split; [exact Htag|apply String.eqb_refl].
Qed.

Lemma loader_filters_by_exact_tag_witness :
  exists data,
    loader Demo.blog (Some "b") = Resolved data /\
    LoaderData.tag data = "b" /\
    forall p, In p (LoaderData.posts data) <->
              In p [Demo.hello_post; Demo.older_post] /\ In "b" (Post.tags p).
Proof.
  apply (loader_filters_by_exact_tag Demo.blog "b"
           [Demo.hello_post; Demo.older_post]).
  reflexivity.
Defined.

(** C9. Every post [readPost] builds has at least one tag, since a split
    at commas yields at least one token. *)
Theorem readPost_tags_nonempty (h : Host) (filename : string) (p : Post.t) :
  readPost h filename = Resolved p ->
  Post.tags p <> [] /\ 1 <= List.length (Post.tags p).
Proof.
  intros Hp.
  apply readPost_resolved in Hp
    as (fc & attributes & body & _ & _ & _ & _ & _ & Hsplit & _).
  rewrite Hsplit.
  pose proof (split_nonempty ","
                (Js.nullish (PostMarkdownAttributes.tags attributes) "")) as Hne.
  split; [exact Hne|].
  destruct (Js.split _ _); [contradiction|simpl; lia].
Qed.

Lemma readPost_tags_nonempty_witness :
  Post.tags Demo.older_post <> [] /\ 1 <= List.length (Post.tags Demo.older_post).
Proof.
  apply (readPost_tags_nonempty Demo.blog "older.md" Demo.older_post).
  reflexivity.
Defined.

(** C10. A draft is validated like any other file: if a file listed in the
    directory has [draft = true] and no valid title, [getPosts] rejects. *)
Theorem getPosts_validates_drafts
    (h : Host) (dir : list string) (filename fileContents body : string)
    (attributes : PostMarkdownAttributes.t) :
  readdir h = Resolved dir ->
  In filename dir ->
  readFile h filename = Resolved fileContents ->
  parseFrontMatter h fileContents = Resolved (attributes, body) ->
  PostMarkdownAttributes.draft attributes = Some true ->
  isValidPostAttributes attributes = false ->
  exists e, getPosts h = Rejected e.
Proof.
  intros Hdir Hin Hfile Hparse _ Hvalid.
  eapply getPosts_rejected; [exact Hdir|exact Hin|].
  eapply readPost_invalid; eassumption.
Qed.

Lemma getPosts_validates_drafts_witness :
  PostMarkdownAttributes.draft (fst (snd Demo.untitled)) = Some true /\
  exists e, getPosts Demo.broken = Rejected e.
Proof.
  split; [reflexivity|].
  apply (getPosts_validates_drafts Demo.broken
           ["older.md"; "untitled.md"; "hello.md"] "untitled.md"
           (snd (fst Demo.untitled)) (snd (snd Demo.untitled))
           (fst (snd Demo.untitled)));
    try reflexivity.
  simpl. tauto.
Defined.


(** * Further properties of the loader *)

(** ** More on promises, lists and strings *)

Lemma Promise_all_map_total {A B : Type} (f : A -> promise B) (l : list A) :
  (forall x, In x l -> exists b, f x = Resolved b) ->
  exists bs, Promise_all (map f l) = Resolved bs.
Proof.
  induction l as [|x l IH]; intros Hall; simpl.
  - now exists [].
  - destruct (Hall x) as (b & ->); [now left|].
    destruct IH as (bs & ->); [intros y Hy; apply Hall; now right|].
    simpl. now exists (b :: bs).
Qed.

Lemma Promise_all_single_rejection {B : Type} (f : string -> promise B)
    (l : list string) (x : string) (e : error) :
  In x l -> f x = Rejected e ->
  (forall y, In y l -> y <> x -> exists b, f y = Resolved b) ->
  Promise_all (map f l) = Rejected e.
Proof.
  induction l as [|y l IH]; intros Hin Hx Hothers; [contradiction|].
  simpl. destruct (String.string_dec y x) as [->|Hne].
  - now rewrite Hx.
  - destruct (Hothers y) as (b & ->); [now left|exact Hne|].
    simpl. rewrite IH; trivial.
    + destruct Hin as [E|Hin]; [contradiction|exact Hin].
    + intros z Hz. apply Hothers. now right.
Qed.

Lemma Forall2_in_l {A B : Type} (R : A -> B -> Prop) (l : list A) (l' : list B) :
  Forall2 R l l' -> forall b, In b l' -> exists a, In a l /\ R a b.
Proof.
  induction 1 as [|a b l l' Hab _ IH]; intros c Hc; [contradiction|].
  destruct Hc as [<-|Hc].
  - exists a. split; [now left|exact Hab].
  - destruct (IH c Hc) as (a' & Hin & HR). exists a'. split; [now right|exact HR].
Qed.

Lemma Forall2_in_r {A B : Type} (R : A -> B -> Prop) (l : list A) (l' : list B) :
  Forall2 R l l' -> forall a, In a l -> exists b, In b l' /\ R a b.
Proof.
  induction 1 as [|a b l l' Hab _ IH]; intros c Hc; [contradiction|].
  destruct Hc as [<-|Hc].
  - exists b. split; [now left|exact Hab].
  - destruct (IH c Hc) as (b' & Hin & HR). exists b'. split; [now right|exact HR].
Qed.

Lemma filter_nil {A : Type} (f : A -> bool) (l : list A) :
  (forall x, In x l -> f x = false) -> filter f l = [].
Proof.
  induction l as [|x l IH]; intros H; simpl; [reflexivity|].
  rewrite (H x) by now left. apply IH. intros y Hy. apply H. now right.
Qed.

Lemma StronglySorted_filter {A : Type} (R : A -> A -> Prop) (f : A -> bool)
    (l : list A) :
  StronglySorted R l -> StronglySorted R (filter f l).
Proof.
  induction 1 as [|x l _ IH Hx]; simpl; [constructor|].
  destruct (f x); [|exact IH].
  constructor; [exact IH|].
  rewrite Forall_forall in *. intros y Hy. apply Hx.
  apply filter_In in Hy. tauto.
Qed.

Section MorePostApiFacts.

Variable h : Host.

(** Every post [getPosts] returns was built by [readPost] from an entry of
    the directory. *)
Lemma getPosts_in (ps : list Post.t) (p : Post.t) :
  getPosts h = Resolved ps -> In p ps ->
  exists dir filename,
    readdir h = Resolved dir /\ In filename dir /\
    readPost h filename = Resolved p.
Proof.
  intros Hps Hin.
  apply getPosts_resolved in Hps as (dir & posts & Hdir & Hall & ->).
  eapply Permutation_in in Hin; [|apply sort_perm].
  apply filter_In in Hin as [Hin _].
  destruct (Forall2_in_l _ _ _ Hall p Hin) as (f & Hf & Hp).
  now exists dir, f.
Qed.

Lemma readPost_resolved_meta (filename : string) (p : Post.t) :
  readPost h filename = Resolved p ->
  (exists c t, Post.title p = Some (String c t)) /\
  Post.slug p = Js.replace_end ".md" filename /\
  Post.permalink p = "/post/" ++ Js.replace_end ".md" filename.
Proof.
  unfold readPost. intros H.
  apply bind_resolved in H as (fileContents & _ & H).
  apply bind_resolved in H as ([attributes body] & _ & H).
  apply bind_resolved in H as ([] & Hinv & H).
  apply bind_resolved in H as (relativeDate & _ & H).
  injection H as <-. simpl. repeat split.
  unfold invariant, isValidPostAttributes, Js.truthy_string in Hinv.
  destruct (PostMarkdownAttributes.title attributes) as [[|c t]|];
    try discriminate. now exists c, t.
Qed.

End MorePostApiFacts.

(** ** When loading succeeds and how it fails *)


(** X2. [getPosts] resolves exactly when the directory can be listed and
    [readPost] resolves for every entry: one entry that fails to load makes
    the whole call fail, whether or not the entry is a draft. *)
Theorem getPosts_resolves_iff (h : Host) :
  (exists ps, getPosts h = Resolved ps) <->
  (exists dir, readdir h = Resolved dir /\
               forall filename, In filename dir ->
                                exists p, readPost h filename = Resolved p).
Proof.
  split.
  - intros (ps & Hps).
    apply getPosts_resolved in Hps as (dir & posts & Hdir & Hall & _).
    exists dir. split; [exact Hdir|].
    intros f Hf. destruct (Forall2_in_r _ _ _ Hall f Hf) as (p & _ & Hp).
    now exists p.
  - intros (dir & Hdir & Hall). unfold getPosts. rewrite Hdir. simpl.
    destruct (Promise_all_map_total (readPost h) dir Hall) as (posts & ->).
    simpl. eauto.
Qed.

(** X3. When exactly one entry of the directory fails to load, [getPosts]
    rejects with the error of that entry; for a file without a valid title
    the error names the file. *)
Theorem getPosts_reports_the_failing_file
    (h : Host) (dir : list string) (filename : string) (e : error) :
  readdir h = Resolved dir ->
  In filename dir ->
  readPost h filename = Rejected e ->
  (forall other, In other dir -> other <> filename ->
                 exists p, readPost h other = Resolved p) ->
  getPosts h = Rejected e.
Proof.
  intros Hdir Hin Hrej Hothers. unfold getPosts. rewrite Hdir. simpl.
  now rewrite (Promise_all_single_rejection (readPost h) dir filename e).
Qed.

Lemma getPosts_reports_the_failing_file_witness :
  getPosts Demo.broken
  = Rejected (InvariantFailed "untitled.md has bad meta data!").
Proof.
  apply (getPosts_reports_the_failing_file Demo.broken
           ["older.md"; "untitled.md"; "hello.md"] "untitled.md");
    [reflexivity|simpl; tauto|reflexivity|].
  intros other [<-|[<-|[<-|[]]]] Hne;
    [eexists; reflexivity|contradiction|eexists; reflexivity].
Defined.

(** ** Slugs and permalinks *)

Lemma ends_with_eq (suf s : string) :
  ends_with suf s =
  if String.eqb s suf then true
  else match s with
       | EmptyString => false
       | String _ s' => ends_with suf s'
       end.
Proof. destruct s; reflexivity. Qed.

Lemma ends_with_iff (suf s : string) :
  ends_with suf s = true <-> exists base, s = base ++ suf.
Proof.
  split.
  - induction s as [|c s IH]; rewrite ends_with_eq.
    + destruct (String.eqb_spec "" suf) as [<-|_]; [|discriminate].
      now exists "".
    + destruct (String.eqb_spec (String c s) suf) as [<-|_].
      * now exists "".
      * intros H. destruct (IH H) as (base & ->). now exists (String c base).
  - intros (base & ->). induction base as [|c base IH]; rewrite ends_with_eq.
    + simpl. now rewrite String.eqb_refl.
    + destruct (String.eqb_spec (String c base ++ suf) suf); [reflexivity|].
      exact IH.
Qed.

Lemma replace_end_unchanged (suf s : string) :
  ends_with suf s = false -> Js.replace_end suf s = s.
Proof.
  induction s as [|c s IH]; rewrite ends_with_eq, replace_end_eq.
  - destruct (String.eqb "" suf); [discriminate|reflexivity].
  - destruct (String.eqb (String c s) suf); [discriminate|].
    intros H. now rewrite IH.
Qed.

(** X4. For a file named [base.md] the slug is [base] and the permalink is
    [/post/base], whatever [base] is: exactly one trailing [.md] is removed,
    also when [base] itself ends in [.md]. *)
Theorem readPost_slug_strips_md (h : Host) (base : string) (p : Post.t) :
  readPost h (base ++ ".md") = Resolved p ->
  Post.slug p = base /\ Post.permalink p = "/post/" ++ base.
Proof.
  intros Hp. apply readPost_resolved_meta in Hp as (_ & Hslug & Hlink).
  rewrite replace_end_app in Hslug, Hlink. now split.
Qed.

Lemma readPost_slug_strips_md_witness :
  Post.slug Demo.hello_post = "hello" /\
  Post.permalink Demo.hello_post = "/post/" ++ "hello".
Proof.
  apply (readPost_slug_strips_md Demo.blog "hello" Demo.hello_post).
  reflexivity.
Defined.

(** X5. For a file whose name does not end in [.md] the slug is the whole
    file name, any other extension included. *)
Theorem readPost_slug_without_md (h : Host) (filename : string) (p : Post.t) :
  ends_with ".md" filename = false ->
  readPost h filename = Resolved p ->
  Post.slug p = filename /\ Post.permalink p = "/post/" ++ filename.
Proof.
  intros Hend Hp. apply readPost_resolved_meta in Hp as (_ & Hslug & Hlink).
  rewrite (replace_end_unchanged _ _ Hend) in Hslug, Hlink. now split.
Qed.

Lemma readPost_slug_without_md_witness :
  Post.slug Archive.readme_post = "README" /\
  Post.permalink Archive.readme_post = "/post/" ++ "README".
Proof.
  apply (readPost_slug_without_md Archive.site "README" Archive.readme_post);
    reflexivity.
Defined.

(** X6. Slugs are not checked for collisions: two different files, [base]
    and [base.md], get the same slug and the same permalink. *)
Theorem readPost_slug_collision (h : Host) (base : string) (p q : Post.t) :
  ends_with ".md" base = false ->
  readPost h base = Resolved p ->
  readPost h (base ++ ".md") = Resolved q ->
  base <> base ++ ".md" /\
  Post.slug p = Post.slug q /\
  Post.permalink p = Post.permalink q.
Proof.
  intros Hend Hp Hq.
  apply readPost_resolved_meta in Hp as (_ & Hsp & Hlp).
  apply readPost_resolved_meta in Hq as (_ & Hsq & Hlq).
  rewrite (replace_end_unchanged _ _ Hend) in Hsp, Hlp.
  rewrite replace_end_app in Hsq, Hlq.
  split; [|split; congruence].
  intros E. apply (f_equal String.length) in E.
  rewrite length_app in E. simpl in E. lia.
Qed.

Lemma readPost_slug_collision_witness :
  "about" <> "about" ++ ".md" /\
  Post.slug Archive.about_post = Post.slug Archive.about_md_post /\
  Post.permalink Archive.about_post = Post.permalink Archive.about_md_post.
Proof.
  apply (readPost_slug_collision Archive.site "about"
           Archive.about_post Archive.about_md_post);
    reflexivity.
Defined.

(** X7. Every post [getPosts] returns has a title, and the title is not
    empty. *)
Theorem getPosts_titles_nonempty (h : Host) (ps : list Post.t) (p : Post.t) :
  getPosts h = Resolved ps -> In p ps ->
  exists c t, Post.title p = Some (String c t).
Proof.
  intros Hps Hin.
  destruct (getPosts_in h ps p Hps Hin) as (dir & f & _ & _ & Hp).
  now apply readPost_resolved_meta in Hp as (Htitle & _).
Qed.

Lemma getPosts_titles_nonempty_witness :
  exists c t, Post.title Demo.older_post = Some (String c t).
Proof.
  apply (getPosts_titles_nonempty Demo.blog
           [Demo.hello_post; Demo.older_post] Demo.older_post);
    [reflexivity|simpl; tauto].
Defined.

(** ** The order of the returned posts *)

Lemma insert_filter {A : Type} (cmp : A -> A -> Z) (P : A -> bool)
    (x : A) (l : list A) :
  (forall y, (0 < cmp x y)%Z -> P x = true -> P y = false) ->
  filter P (Js.insert cmp x l) = filter P (x :: l).
Proof.
  intros Hskip. induction l as [|y l IH]; [reflexivity|].
  cbn [Js.insert]. destruct (cmp x y <=? 0)%Z eqn:E; [reflexivity|].
  apply Z.leb_gt in E. cbn [filter] in *. rewrite IH.
  destruct (P x) eqn:Px; [|reflexivity].
  now rewrite (Hskip y E eq_refl).
Qed.

Lemma sort_filter {A : Type} (cmp : A -> A -> Z) (P : A -> bool) (l : list A) :
  (forall x y, (0 < cmp x y)%Z -> P x = true -> P y = false) ->
  filter P (Js.sort cmp l) = filter P l.
Proof.
  intros Hskip. induction l as [|x l IH]; [reflexivity|].
  cbn [Js.sort]. rewrite insert_filter by (apply Hskip).
  cbn [filter]. now rewrite IH.
Qed.

(** X8. The comparator of [getPosts] is consistent: exchanging its
    arguments negates the result, and the result is [0] exactly for posts of
    the same [postDate]. *)
Theorem compare_posts_consistent (a b : Post.t) :
  compare_posts a b = (- compare_posts b a)%Z /\
  (compare_posts a b = 0%Z <-> Post.postDate a = Post.postDate b).
Proof.
  unfold compare_posts, Js.gt.
  fold (Js.lt (Post.postDate b) (Post.postDate a)).
  fold (Js.lt (Post.postDate a) (Post.postDate b)).
  destruct (Js.lt (Post.postDate a) (Post.postDate b)) eqn:Hab.
  - rewrite (lt_asym _ _ Hab). split; [reflexivity|].
    split; [discriminate|]. intros E. rewrite E, lt_irrefl in Hab. discriminate.
  - destruct (Js.lt (Post.postDate b) (Post.postDate a)) eqn:Hba.
    + split; [reflexivity|].
      split; [discriminate|]. intros E. rewrite E, lt_irrefl in Hba. discriminate.
    + split; [reflexivity|]. split; [|reflexivity]. intros _.
      destruct (String.string_dec (Post.postDate a) (Post.postDate b))
        as [E|Hne]; [exact E|].
      pose proof (lt_connex _ _ Hab Hne). congruence.
Qed.

(** X9. Posts of the same [postDate] are returned in the order of their
    files in the directory listing: for every date, the returned posts of
    that date are the non-draft posts of that date in directory order. *)
Theorem getPosts_keeps_directory_order_of_equal_dates
    (h : Host) (ps : list Post.t) :
  getPosts h = Resolved ps ->
  exists dir posts,
    readdir h = Resolved dir /\
    Forall2 (fun filename p => readPost h filename = Resolved p) dir posts /\
    forall d, filter (dated d) ps = filter (dated d) (filter published posts).
Proof.
  intros Hps.
  apply getPosts_resolved in Hps as (dir & posts & Hdir & Hall & ->).
  exists dir, posts. repeat split; trivial.
  intros d. apply sort_filter.
  intros x y Hxy Hx. unfold dated in *.
  apply String.eqb_eq in Hx. apply String.eqb_neq. intros Hy.
  unfold compare_posts in Hxy. rewrite Hx, Hy, lt_irrefl in Hxy.
  unfold Js.gt in Hxy. fold (Js.lt d d) in Hxy. rewrite lt_irrefl in Hxy. lia.
Qed.

Lemma getPosts_keeps_directory_order_of_equal_dates_witness :
  getPosts Archive.site
  = Resolved [Archive.about_md_post; Archive.about_post; Archive.readme_post] /\
  exists dir posts,
    readdir Archive.site = Resolved dir /\
    Forall2 (fun filename p => readPost Archive.site filename = Resolved p)
      dir posts /\
    forall d,
      filter (dated d)
        [Archive.about_md_post; Archive.about_post; Archive.readme_post]
      = filter (dated d) (filter published posts).
Proof.
  split; [reflexivity|].
  apply (getPosts_keeps_directory_order_of_equal_dates Archive.site).
  reflexivity.
Defined.

(** ** Tags *)

Lemma split_length (sep : ascii) (s : string) :
  List.length (Js.split sep s)
  = S (count_occ ascii_dec (list_ascii_of_string s) sep).
Proof.
  induction s as [|c s IH]; [reflexivity|].
  cbn [Js.split list_ascii_of_string count_occ].
  destruct (Ascii.eqb_spec c sep) as [->|Hne].
  - destruct (ascii_dec sep sep); [|contradiction]. simpl. now rewrite IH.
  - destruct (ascii_dec c sep); [contradiction|].
    destruct (Js.split sep s); [discriminate|exact IH].
Qed.

(** X10. A post has one tag more than its raw [tags] attribute has commas
    (an absent attribute counting as the empty string), so empty tokens,
    as after a trailing comma, are tags too. *)
Theorem readPost_tags_count
    (h : Host) (filename fileContents body : string)
    (attributes : PostMarkdownAttributes.t) (p : Post.t) :
  readFile h filename = Resolved fileContents ->
  parseFrontMatter h fileContents = Resolved (attributes, body) ->
  readPost h filename = Resolved p ->
  List.length (Post.tags p)
  = S (commas (Js.nullish (PostMarkdownAttributes.tags attributes) "")).
Proof.
  intros Hfile Hparse Hp.
  apply readPost_resolved in Hp
    as (fc & at' & b' & Hfile' & Hparse' & _ & _ & _ & Hsplit & _).
  rewrite Hfile in Hfile'. injection Hfile' as <-.
  rewrite Hparse in Hparse'. injection Hparse' as <- <-.
  rewrite Hsplit. apply split_length.
Qed.

Lemma readPost_tags_count_witness :
  List.length (Post.tags Demo.hello_post) = S (commas "a,b,c").
Proof.
  apply (readPost_tags_count Demo.blog "hello.md"
           (snd (fst Demo.hello)) (snd (snd Demo.hello))
           (fst (snd Demo.hello)) Demo.hello_post);
    reflexivity.
Defined.

(** ** The tag route's loader *)

(** X11. The loader rejects in two cases only: [getPosts] rejects, and the
    loader rejects with the same error whatever the tag; or the posts load
    and no tag was given, and the error is the invariant's
    "No tag provided".  The posts are loaded before the tag is looked at. *)
Theorem loader_rejects_iff (h : Host) (tag : option string) (e : error) :
  loader h tag = Rejected e <->
  getPosts h = Rejected e \/
  (tag = None /\ e = InvariantFailed "No tag provided" /\
   exists ps, getPosts h = Resolved ps).
Proof.
  unfold loader. destruct (getPosts h) as [ps|e']; simpl.
  - destruct tag as [t|]; split.
    + discriminate.
    + intros [H|(H & _)]; discriminate.
    + intros H. injection H as <-. right. eauto.
    + intros [H|(_ & -> & _)]; [discriminate|reflexivity].
  - split.
    + intros H. injection H as ->. now left.
    + intros [H|(_ & _ & ps & H)]; [now injection H as ->|discriminate].
Qed.

(** X12. What the loader returns for a tag is still in reverse chronological
    order and still without drafts. *)
Theorem loader_sorted_without_drafts
    (h : Host) (tag : string) (data : LoaderData.t) :
  loader h (Some tag) = Resolved data ->
  StronglySorted
    (fun a b => Js.lt (Post.postDate a) (Post.postDate b) = false)
    (LoaderData.posts data) /\
  Forall (fun p => Post.draft p <> Some true) (LoaderData.posts data).
Proof.
  unfold loader. intros H.
  apply bind_resolved in H as (ps & Hps & H). injection H as <-. simpl.
  split.
  - apply StronglySorted_filter. now apply getPosts_sorted with h.
  - apply Forall_forall. intros p Hp. apply filter_In in Hp as [Hp _].
    apply getPosts_resolved in Hps as (dir & posts & _ & _ & ->).
    eapply Permutation_in in Hp; [|apply sort_perm].
    apply filter_In in Hp as [_ Hd].
    intros E. rewrite E in Hd. discriminate.
Qed.

Lemma loader_sorted_without_drafts_witness :
  StronglySorted
    (fun a b => Js.lt (Post.postDate a) (Post.postDate b) = false)
    [Archive.about_post; Archive.readme_post] /\
  Forall (fun p => Post.draft p <> Some true)
    [Archive.about_post; Archive.readme_post].
Proof.
  apply (loader_sorted_without_drafts Archive.site "meta"
           {| LoaderData.tag := "meta";
              LoaderData.posts := [Archive.about_post; Archive.readme_post] |}).
  reflexivity.
Defined.

(** X13. A returned post whose file has no [tags] attribute is listed under
    the empty tag. *)
Theorem loader_empty_tag_lists_untagged
    (h : Host) (filename fileContents body : string)
    (attributes : PostMarkdownAttributes.t) (p : Post.t) (ps : list Post.t) :
  readFile h filename = Resolved fileContents ->
  parseFrontMatter h fileContents = Resolved (attributes, body) ->
  PostMarkdownAttributes.tags attributes = None ->
  readPost h filename = Resolved p ->
  getPosts h = Resolved ps ->
  In p ps ->
  exists data, loader h (Some "") = Resolved data /\ In p (LoaderData.posts data).
Proof.
  intros Hfile Hparse Htags Hp Hps Hin.
  apply readPost_resolved in Hp
    as (fc & at' & b' & Hfile' & Hparse' & _ & _ & _ & Hsplit & _).
  rewrite Hfile in Hfile'. injection Hfile' as <-.
  rewrite Hparse in Hparse'. injection Hparse' as <- <-.
  rewrite Htags in Hsplit. simpl in Hsplit.
  unfold loader. rewrite Hps. simpl. eexists. split; [reflexivity|].
  simpl. apply filter_In. split; [exact Hin|]. now rewrite Hsplit.
Qed.

Lemma loader_empty_tag_lists_untagged_witness :
  exists data,
    loader Demo.blog (Some "") = Resolved data /\
    In Demo.older_post (LoaderData.posts data).
Proof.
  apply (loader_empty_tag_lists_untagged Demo.blog "older.md"
           (snd (fst Demo.older)) (snd (snd Demo.older))
           (fst (snd Demo.older)) Demo.older_post
           [Demo.hello_post; Demo.older_post]);
    try reflexivity.
  simpl. tauto.
Defined.

(** X14. A tag that contains a comma matches no post: the loader resolves
    with an empty list. *)
Theorem loader_comma_tag_matches_nothing
    (h : Host) (tag : string) (ps : list Post.t) :
  In ","%char (list_ascii_of_string tag) ->
  getPosts h = Resolved ps ->
  loader h (Some tag)
  = Resolved {| LoaderData.tag := tag; LoaderData.posts := [] |}.
Proof.
  intros Hcomma Hps. unfold loader. rewrite Hps. simpl.
  rewrite filter_nil; [reflexivity|].
  intros p Hin.
  destruct (getPosts_in h ps p Hps Hin) as (dir & f & _ & _ & Hp).
  apply readPost_resolved in Hp
    as (fc & attributes & body & _ & _ & _ & _ & _ & Hsplit & _).
  destruct (Js.includes (Post.tags p) tag) eqn:E; [|reflexivity].
  unfold Js.includes in E. apply existsb_exists in E as (t & Ht & Heq).
  apply String.eqb_eq in Heq. subst t. rewrite Hsplit in Ht.
  pose proof (split_no_sep ","
                (Js.nullish (PostMarkdownAttributes.tags attributes) "")) as Hno.
  rewrite Forall_forall in Hno. now destruct (Hno tag Ht).
Qed.

Lemma loader_comma_tag_matches_nothing_witness :
  loader Demo.blog (Some "a,b")
  = Resolved {| LoaderData.tag := "a,b"; LoaderData.posts := [] |}.
Proof.
  apply (loader_comma_tag_matches_nothing Demo.blog "a,b"
           [Demo.hello_post; Demo.older_post]);
    [simpl; tauto|reflexivity].
Defined.

(** X15. Every post [getPosts] returns is listed by the loader for at least
    one tag. *)
Theorem loader_lists_every_post
    (h : Host) (ps : list Post.t) (p : Post.t) :
  getPosts h = Resolved ps -> In p ps ->
  exists tag data,
    loader h (Some tag) = Resolved data /\ In p (LoaderData.posts data).
Proof.
  intros Hps Hin.
  destruct (getPosts_in h ps p Hps Hin) as (dir & f & _ & _ & Hp).
  apply readPost_resolved in Hp
    as (fc & attributes & body & _ & _ & _ & _ & _ & Hsplit & _).
  pose proof (split_nonempty ","
                (Js.nullish (PostMarkdownAttributes.tags attributes) "")) as Hne.
  rewrite <- Hsplit in Hne.
  destruct (Post.tags p) as [|t ts] eqn:Etags; [contradiction|].
  exists t. unfold loader. rewrite Hps. simpl. eexists. split; [reflexivity|].
  simpl. apply filter_In. split; [exact Hin|].
  rewrite Etags. simpl. now rewrite String.eqb_refl.
Qed.

Lemma loader_lists_every_post_witness :
  exists tag data,
    loader Demo.blog (Some tag) = Resolved data /\
    In Demo.hello_post (LoaderData.posts data).
Proof.
  apply (loader_lists_every_post Demo.blog [Demo.hello_post; Demo.older_post]);
    [reflexivity|simpl; tauto].
Defined.

(** ** Excerpts *)

(** X16. When the first paragraph serialises to [<p>], some content and
    [</p>], the excerpt is that content, whatever it is. *)
Theorem excerpt_is_inner_content (h : Host) (html inner : string) :
  first_p h html = "<p>" ++ inner ++ "</p>" -> excerpt h html = inner.
Proof.
  apply excerpt_unwraps.
Qed.

Lemma excerpt_is_inner_content_witness :
  excerpt Demo.blog "<p>One <em>two</em> three</p>" = "One <em>two</em> three".
Proof.
  apply (excerpt_is_inner_content Demo.blog
           "<p>One <em>two</em> three</p>" "One <em>two</em> three").
  reflexivity.
Defined.

(** X17. When the opening tag of the first paragraph carries attributes,
    only the closing tag is removed: the excerpt keeps the opening tag and
    is left unbalanced. *)
Theorem excerpt_keeps_opening_tag_with_attributes
    (h : Host) (html rest : string) (c : ascii) :
  c <> ">"%char ->
  first_p h html = "<p" ++ String c rest ++ "</p>" ->
  excerpt h html = "<p" ++ String c rest.
Proof.
  intros Hc H. unfold excerpt, Js.trim. rewrite H.
  change ("<p" ++ String c rest ++ "</p>")
    with (String "<" (String "p" (String c (rest ++ "</p>")))).
  cbn [Js.trimStart]. change (Js.is_white_space "<") with false. cbv iota.
  replace (String "<" (String "p" (String c (rest ++ "</p>"))))
    with ((("<p" ++ String c rest) ++ "</p") ++ ">").
  - rewrite trimEnd_last by reflexivity.
    replace ((("<p" ++ String c rest) ++ "</p") ++ ">")
      with (("<p" ++ String c rest) ++ "</p>")
      by (now rewrite !app_assoc).
    unfold Js.replace_start.
    change (("<p" ++ String c rest) ++ "</p>")
      with (String "<" (String "p" (String c (rest ++ "</p>")))).
    cbn [Js.strip_start].
    change (Ascii.eqb "<" "<") with true. change (Ascii.eqb "p" "p") with true.
    cbv iota.
    destruct (Ascii.eqb_spec ">" c) as [E|_]; [now subst c|].
    change (String "<" (String "p" (String c (rest ++ "</p>"))))
      with (("<p" ++ String c rest) ++ "</p>").
    apply replace_end_app.
  - simpl. do 3 f_equal. now rewrite !app_assoc.
Qed.

Lemma excerpt_keeps_opening_tag_with_attributes_witness :
  excerpt Demo.blog "<p class='lead'>Hi</p>" = "<p" ++ " class='lead'>Hi".
Proof.
  apply (excerpt_keeps_opening_tag_with_attributes Demo.blog
           "<p class='lead'>Hi</p>" "class='lead'>Hi" " "%char);
    [discriminate|reflexivity].
Defined.

(** ** The order of the directory listing *)

Lemma filter_perm {A : Type} (f : A -> bool) (l l' : list A) :
  Permutation l l' -> Permutation (filter f l) (filter f l').
Proof.
  induction 1 as [|x l l' _ IH|x y l|l l' l'' _ IH1 _ IH2]; simpl.
  - constructor.
  - destruct (f x); [now constructor|exact IH].
  - destruct (f x), (f y); try reflexivity. apply perm_swap.
  - now transitivity (filter f l').
Qed.

Lemma map_Resolved_inj {A : Type} (l l' : list A) :
  map (@Resolved A) l = map (@Resolved A) l' -> l = l'.
Proof.
  revert l'. induction l as [|a l IH]; intros [|b l'] H; try discriminate.
  - reflexivity.
  - simpl in H. injection H as -> H. f_equal. now apply IH.
Qed.

Lemma Promise_all_resolved_map {A : Type} (ps : list (promise A)) (l : list A) :
  Promise_all ps = Resolved l -> ps = map (@Resolved A) l.
Proof.
  intros H. apply Promise_all_resolved in H.
  induction H as [|p a ps l -> _ IH]; simpl; [reflexivity|now rewrite IH].
Qed.

Lemma sorted_perm_unique {A : Type} (R : A -> A -> Prop) (l1 l2 : list A) :
  StronglySorted R l1 -> StronglySorted R l2 -> Permutation l1 l2 ->
  (forall a b, In a l1 -> In b l1 -> R a b -> R b a -> a = b) ->
  l1 = l2.
Proof.
  intros H1. revert l2. induction H1 as [|x l1 Hs1 IH Hx]; intros l2 H2 Hperm Hanti.
  - apply Permutation_nil in Hperm. now subst.
  - destruct l2 as [|y l2];
      [apply Permutation_sym, Permutation_nil in Hperm; discriminate|].
    inversion H2 as [|? ? Hs2 Hy]; subst.
    rewrite Forall_forall in Hx, Hy.
    assert (x = y) as <-.
    { assert (In x (y :: l2)) as Hxin
        by (eapply Permutation_in; [exact Hperm|now left]).
      assert (In y (x :: l1)) as Hyin
        by (eapply Permutation_in; [symmetry; exact Hperm|now left]).
      destruct Hxin as [E|Hxin]; [now subst|].
      destruct Hyin as [E|Hyin]; [now subst|].
      apply Hanti; [now left|now right|now apply Hx|now apply Hy]. }
    f_equal. apply IH; trivial.
    + now apply Permutation_cons_inv in Hperm.
    + intros a b Ha Hb. apply Hanti; now right.
Qed.

Lemma NoDup_map_eq {A B : Type} (f : A -> B) (l : list A) (a b : A) :
  NoDup (map f l) -> In a l -> In b l -> f a = f b -> a = b.
Proof.
  induction l as [|x l IH]; simpl; intros Hnd Ha Hb E; [contradiction|].
  inversion Hnd as [|? ? Hnotin Hnd']; subst.
  destruct Ha as [->|Ha], Hb as [->|Hb]; trivial.
  - exfalso. apply Hnotin. rewrite E. now apply in_map.
  - exfalso. apply Hnotin. rewrite <- E. now apply in_map.
  - now apply IH.
Qed.

(** X18. The order in which the directory lists its files decides the
    order of posts of equal [postDate] only: for two listings of the same
    files, [getPosts] returns the same posts, and the same sequence when no
    two of them have the same [postDate]. *)
Theorem getPosts_independent_of_listing_order
    (h : Host) (dir dir' : list string) (ps ps' : list Post.t) :
  Permutation dir dir' ->
  getPosts (with_readdir h (Resolved dir)) = Resolved ps ->
  getPosts (with_readdir h (Resolved dir')) = Resolved ps' ->
  Permutation ps ps' /\
  (NoDup (map Post.postDate ps) -> ps = ps').
Proof.
  intros Hdir Hps Hps'.
  pose proof (getPosts_sorted _ _ Hps) as Hsorted.
  pose proof (getPosts_sorted _ _ Hps') as Hsorted'.
  assert (Permutation ps ps') as Hperm.
  { unfold getPosts in Hps, Hps'. simpl in Hps, Hps'.
    apply bind_resolved in Hps as (posts & Hall & Hps).
    apply bind_resolved in Hps' as (posts' & Hall' & Hps').
    injection Hps as <-. injection Hps' as <-.
    apply Promise_all_resolved_map in Hall, Hall'.
    change (readPost (with_readdir h (Resolved dir))) with (readPost h) in Hall.
    change (readPost (with_readdir h (Resolved dir'))) with (readPost h) in Hall'.
    assert (Permutation posts posts') as Hposts.
    { pose proof (Permutation_map (readPost h) Hdir) as Hm.
      rewrite Hall, Hall' in Hm.
      apply Permutation_sym, Permutation_map_inv in Hm as (l3 & E & Hm).
      apply map_Resolved_inj in E. subst l3. exact Hm. }
    rewrite !sort_perm. now apply filter_perm. }
  split; [exact Hperm|].
  intros Hnd. apply (sorted_perm_unique _ _ _ Hsorted Hsorted' Hperm).
  intros a b Ha Hb Hab Hba.
  apply (NoDup_map_eq Post.postDate ps); trivial.
  destruct (String.string_dec (Post.postDate a) (Post.postDate b))
    as [E|Hne]; [exact E|].
  pose proof (lt_connex _ _ Hab Hne). congruence.
Qed.

Lemma getPosts_independent_of_listing_order_witness :
  Permutation [Demo.hello_post; Demo.older_post]
    [Demo.hello_post; Demo.older_post] /\
  (NoDup (map Post.postDate [Demo.hello_post; Demo.older_post]) ->
   [Demo.hello_post; Demo.older_post] = [Demo.hello_post; Demo.older_post]).
Proof.
  apply (getPosts_independent_of_listing_order Demo.blog
           ["older.md"; "hello.md"; "wip.md"]
           ["wip.md"; "hello.md"; "older.md"]);
    [|reflexivity|reflexivity].
  apply perm_trans with ["hello.md"; "older.md"; "wip.md"].
  - apply perm_swap.
  - apply perm_trans with ["hello.md"; "wip.md"; "older.md"].
    + apply perm_skip, perm_swap.
    + apply perm_swap.
Defined.
